(** * core-js-101, src/05-objects-tasks.js

    A shallow embedding of the three utilities of the module:
    the [Rectangle] constructor, the JSON helpers [getJSON] / [fromJSON],
    and the CSS selector builder ([SelectorBuilder] and the
    [cssSelectorBuilder] facade), followed by the properties proved
    about them. *)

From stdpp Require Import base strings list.
From Stdlib Require Import ZArith Lia.

Open Scope Z_scope.

(** ** The fragments of JavaScript the module relies on *)

Module Js.

(** What an array read [arr[i]] or a property read [o.str] can give
    here: a string, or [undefined]. *)
Inductive value :=
| undefined
| Str (s : string).

(** [arr[i]] for an integer index: [undefined] outside the array
    (in particular at index [-1]). *)
Definition get (arr : list string) (i : Z) : value :=
  if i <? 0 then undefined
  else match arr !! Z.to_nat i with
       | Some s => Str s
       | None => undefined
       end.

(** [arr.length] *)
Definition length (arr : list string) : Z := Z.of_nat (List.length arr).

(** [a === b] *)
Definition strict_eq (a b : value) : bool :=
  match a, b with
  | undefined, undefined => true
  | Str s, Str t => bool_decide (s = t)
  | _, _ => false
  end.

(** [arr.indexOf(x)]: the first index holding a value strictly equal
    to [x], or [-1]. *)
Fixpoint indexOf_from (arr : list string) (x : value) (i : Z) : Z :=
  match arr with
  | [] => -1
  | s :: rest => if strict_eq (Str s) x then i
                 else indexOf_from rest x (i + 1)
  end.

Definition indexOf (arr : list string) (x : value) : Z :=
  indexOf_from arr x 0.

(** [arr.includes(x)] *)
Definition includes (arr : list string) (x : value) : bool :=
  existsb (fun s => strict_eq (Str s) x) arr.

(** [arr.push(x)], as the new array. *)
Definition push (arr : list string) (x : string) : list string :=
  arr ++ [x].

(** The text a template literal puts for [${v}]. *)
Definition template (v : value) : string :=
  match v with
  | undefined => "undefined"
  | Str s => s
  end.

(** [new Error(message)] *)
Inductive Error := new_Error (message : string).

Definition message (e : Error) : string :=
  match e with new_Error m => m end.

(** How a call ends: it returns a value or throws. *)
Inductive completion (A : Type) :=
| Return (a : A)
| Throw (e : Error).
Arguments Return {A} a.
Arguments Throw {A} e.

End Js.

Import Js.

(** ** The selector builder *)

(** lines 116-126 *)
Definition order : list string :=
  ["el"; "id"; "class"; "attr"; "pseudoClass"; "pseudoEl"]%string.

Definition oneTimeSelectors : list string := ["el"; "id"; "pseudoEl"]%string.

Definition error1 : string :=
  "Element, id and pseudo-element should not occur more then one time inside the selector".

Definition error2 : string :=
  "Selector parts should be arranged in the following order: element, id, class, attribute, pseudo-class, pseudo-element".

(** The fields of a [SelectorBuilder] instance. *)
Record SelectorBuilder := mkSelectorBuilder {
  usedSelectors : list string;
  str : string
}.

Module Builder.

(** A method body runs on the fields of [this], may change them, and
    either returns or throws; the fields it leaves are those at the
    point where it stopped. *)
Definition M (A : Type) : Type :=
  SelectorBuilder -> SelectorBuilder * completion A.

#[global] Instance M_ret : MRet M := fun A a this => (this, Return a).

#[global] Instance M_bind : MBind M := fun A B k m this =>
  match m this with
  | (this', Return a) => k a this'
  | (this', Throw e) => (this', Throw e)
  end.

Definition throw {A} (e : Error) : M A := fun this => (this, Throw e).

Definition read {A} (field : SelectorBuilder -> A) : M A :=
  fun this => (this, Return (field this)).

Definition set_usedSelectors (l : list string) : M unit :=
  fun this => (mkSelectorBuilder l (str this), Return ()).

Definition set_str (s : string) : M unit :=
  fun this => (mkSelectorBuilder (usedSelectors this) s, Return ()).

(** lines 129-132 *)
Definition constructor : SelectorBuilder :=
  {| usedSelectors := []; str := "" |}.

(** lines 170-176 *)
Definition process (selector : string) : M unit :=
  used ← read usedSelectors;
  if strict_eq (get used (Js.length used - 1)) (Str selector)
     && includes oneTimeSelectors (Str selector)
  then throw (new_Error error1)
  else
    used ← read usedSelectors;
    if indexOf order (get used (Js.length used - 1))
       >? indexOf order (Str selector)
    then throw (new_Error error2)
    else
      used ← read usedSelectors;
      set_usedSelectors (push used selector).

(** [this.str += text] *)
Definition append_str (text : string) : M unit :=
  s ← read str;
  set_str (s +:+ text).

(** lines 134-168; each returns [this], which the caller already
    holds, so the embedding returns [()]. *)
Definition element (value : string) : M unit :=
  process "el" ;; append_str value.

Definition id (value : string) : M unit :=
  process "id" ;; append_str ("#" +:+ value).

Definition class (value : string) : M unit :=
  process "class" ;; append_str ("." +:+ value).

Definition attr (value : string) : M unit :=
  process "attr" ;; append_str ("[" +:+ value +:+ "]").

Definition pseudoClass (value : string) : M unit :=
  process "pseudoClass" ;; append_str (":" +:+ value).

Definition pseudoElement (value : string) : M unit :=
  process "pseudoEl" ;; append_str ("::" +:+ value).

(** lines 178-180 *)
Definition stringify : M string := read str.

End Builder.


(** *** Fragment appends, as a family *)

(** The six fragment methods of the class. *)
Inductive Kind :=
| Element | Id | Class | Attr | PseudoClass | PseudoElement.

#[global] Instance Kind_eq_dec : EqDecision Kind.
Proof. solve_decision. Defined.

(** The name each method passes to [process]. *)
Definition tag (k : Kind) : string :=
  match k with
  | Element => "el" | Id => "id" | Class => "class"
  | Attr => "attr" | PseudoClass => "pseudoClass" | PseudoElement => "pseudoEl"
  end.

(** [this.k(value)] for the method named by [k]. *)
Definition append (k : Kind) (value : string) : Builder.M unit :=
  match k with
  | Element => Builder.element value
  | Id => Builder.id value
  | Class => Builder.class value
  | Attr => Builder.attr value
  | PseudoClass => Builder.pseudoClass value
  | PseudoElement => Builder.pseudoElement value
  end.

(** A fluent chain [.k1(v1).k2(v2)...] on one builder. *)
Fixpoint chain (fragments : list (Kind * string)) : Builder.M unit :=
  match fragments with
  | [] => mret ()
  | (k, v) :: rest => append k v ;; chain rest
  end.

(** The builders a program can hold: a new one, and whatever a fragment
    append that returned has made of one. *)
Inductive reachable : SelectorBuilder -> Prop :=
| reachable_new : reachable Builder.constructor
| reachable_append b k v b' :
    reachable b -> append k v b = (b', Return ()) -> reachable b'.

(** *** What the specification says of fragments *)

(** The rank of a kind:
    element < id < class < attribute < pseudoClass < pseudoElement. *)
Definition spec_rank (k : Kind) : Z :=
  match k with
  | Element => 0 | Id => 1 | Class => 2
  | Attr => 3 | PseudoClass => 4 | PseudoElement => 5
  end.

(** The singleton kinds: element, id, pseudoElement. *)
Definition spec_singleton (k : Kind) : bool :=
  match k with
  | Element | Id | PseudoElement => true
  | _ => false
  end.

(** The rendered form of a fragment. *)
Definition spec_render (k : Kind) (v : string) : string :=
  match k with
  | Element => v
  | Id => "#" +:+ v
  | Class => "." +:+ v
  | Attr => "[" +:+ v +:+ "]"
  | PseudoClass => ":" +:+ v
  | PseudoElement => "::" +:+ v
  end.

(** The two validation rules, on the kind appended last (if any) and the
    kind being appended. *)
Definition spec_singleton_violation (last : option Kind) (k : Kind) : bool :=
  match last with
  | Some p => bool_decide (p = k) && spec_singleton k
  | None => false
  end.

Definition spec_ordering_violation (last : option Kind) (k : Kind) : bool :=
  match last with
  | Some p => spec_rank p >? spec_rank k
  | None => false
  end.

(** A sequence of kinds that satisfies the validation rules: each
    neighbouring pair has non-decreasing rank and is not a repeat of a
    singleton kind. *)
Fixpoint spec_valid_from (last : option Kind) (kinds : list Kind) : bool :=
  match kinds with
  | [] => true
  | k :: rest =>
      negb (spec_singleton_violation last k)
      && negb (spec_ordering_violation last k)
      && spec_valid_from (Some k) rest
  end.

Definition spec_valid (kinds : list Kind) : bool := spec_valid_from None kinds.

(** The concatenation of the rendered forms, in order, no separators. *)
Fixpoint spec_concat (fragments : list (Kind * string)) : string :=
  match fragments with
  | [] => ""
  | (k, v) :: rest => spec_render k v +:+ spec_concat rest
  end.

(** The two messages as the specification words them. *)
Definition spec_error1 : string :=
  "element, id and pseudo-element should not occur more than once".

Definition spec_error2 : string :=
  "selector parts must follow order: element, id, class, attribute, pseudo-class, pseudo-element".

(** What [process] reads as the kind appended last:
    [usedSelectors[usedSelectors.length - 1]]. *)
Definition last_value (used : list string) : Js.value :=
  match last used with
  | Some s => Str s
  | None => undefined
  end.

(** The same, for a builder whose last append was of kind [p] (or that
    has none yet). *)
Definition recorded_last (p : option Kind) : Js.value :=
  match p with
  | Some k => Str (tag k)
  | None => undefined
  end.

(** ** The facade and the objects of a program *)

(** A reference to an object: the [cssSelectorBuilder] object itself, or
    the [n]-th [SelectorBuilder] made by [new]. *)
Inductive ref :=
| facade
| instance (n : nat).

(** The objects: the [str] property of the facade object (absent until
    [combine] first sets it) and the instances made so far. *)
Record heap := mkHeap {
  facade_str : Js.value;
  instances : list SelectorBuilder
}.

Definition initial_heap : heap := {| facade_str := undefined; instances := [] |}.

Module cssSelectorBuilder.

(** A program step over the objects; [None] when it is handed a
    reference to an instance that was never made. *)
Definition H (A : Type) : Type := heap -> option (heap * completion A).

#[global] Instance H_ret : MRet H := fun A a h => Some (h, Return a).

#[global] Instance H_bind : MBind H := fun A B k m h =>
  match m h with
  | Some (h', Return a) => k a h'
  | Some (h', Throw e) => Some (h', Throw e)
  | None => None
  end.

(** [new SelectorBuilder()] *)
Definition new_SelectorBuilder : H nat := fun h =>
  Some (mkHeap (facade_str h) (instances h ++ [Builder.constructor]),
        Return (List.length (instances h))).

(** A method of the class run with [this] the [n]-th instance: the
    fields it leaves are stored back, whether it returned or threw. *)
Definition invoke {A} (m : Builder.M A) (n : nat) : H A := fun h =>
  match instances h !! n with
  | Some this =>
      let '(this', c) := m this in
      Some (mkHeap (facade_str h) (<[n := this']> (instances h)), c)
  | None => None
  end.

(** [r.k(value)]: on an instance the method of the class, which returns
    [this]; on the facade object its own entry of that name (lines
    183-193), [(value) => new SelectorBuilder().k(value)]. *)
Definition call (r : ref) (k : Kind) (value : string) : H ref :=
  match r with
  | instance n => invoke (append k value) n ;; mret (instance n)
  | facade =>
      n ← new_SelectorBuilder;
      invoke (append k value) n ;; mret (instance n)
  end.

(** lines 183-193 *)
Definition element (value : string) : H ref := call facade Element value.
Definition id (value : string) : H ref := call facade Id value.
Definition class (value : string) : H ref := call facade Class value.
Definition attr (value : string) : H ref := call facade Attr value.
Definition pseudoClass (value : string) : H ref := call facade PseudoClass value.
Definition pseudoElement (value : string) : H ref :=
  call facade PseudoElement value.

(** The entry of the facade for each kind. *)
Definition entry (k : Kind) : string -> H ref :=
  match k with
  | Element => element
  | Id => id
  | Class => class
  | Attr => attr
  | PseudoClass => pseudoClass
  | PseudoElement => pseudoElement
  end.

(** [sel.str] *)
Definition get_str (sel : ref) : H Js.value := fun h =>
  match sel with
  | facade => Some (h, Return (facade_str h))
  | instance n =>
      match instances h !! n with
      | Some b => Some (h, Return (Str (str b)))
      | None => None
      end
  end.

(** [this.str = v] with [this] the facade object. *)
Definition set_facade_str (v : Js.value) : H unit := fun h =>
  Some (mkHeap v (instances h), Return ()).

(** lines 195-198 *)
Definition combine (sel1 : ref) (combin : string) (sel2 : ref) : H ref :=
  s1 ← get_str sel1;
  s2 ← get_str sel2;
  set_facade_str
    (Str (template s1 +:+ " " +:+ combin +:+ " " +:+ template s2)) ;;
  mret facade.

(** [sel.stringify()]: lines 178-180 on an instance, lines 199-201 on
    the facade object; both return [this.str]. *)
Definition stringify (sel : ref) : H Js.value := get_str sel.

End cssSelectorBuilder.

(** *** Programs over the facade *)

(** [combine(element('div').id('main'), '+',
             element('table').id('data')).stringify()] *)
Definition div_plus_table : cssSelectorBuilder.H Js.value :=
  a ← cssSelectorBuilder.element "div";
  a ← cssSelectorBuilder.call a Id "main";
  b ← cssSelectorBuilder.element "table";
  b ← cssSelectorBuilder.call b Id "data";
  s ← cssSelectorBuilder.combine a "+" b;
  cssSelectorBuilder.stringify s.

(** [x = combine(element('a'), '+', element('b')); before = x.stringify();
     y = combine(element('c'), '~', element('d')); after = x.stringify()] *)
Definition two_combines : cssSelectorBuilder.H (ref * ref * Js.value * Js.value) :=
  a ← cssSelectorBuilder.element "a";
  b ← cssSelectorBuilder.element "b";
  x ← cssSelectorBuilder.combine a "+" b;
  before ← cssSelectorBuilder.stringify x;
  c ← cssSelectorBuilder.element "c";
  d ← cssSelectorBuilder.element "d";
  y ← cssSelectorBuilder.combine c "~" d;
  after ← cssSelectorBuilder.stringify x;
  mret (x, y, before, after).

(** [combine(combine(element('a'), '+', element('b')), '~',
             combine(element('c'), ' ', element('d'))).stringify()] *)
Definition combine_of_combines : cssSelectorBuilder.H Js.value :=
  a ← cssSelectorBuilder.element "a";
  b ← cssSelectorBuilder.element "b";
  x ← cssSelectorBuilder.combine a "+" b;
  c ← cssSelectorBuilder.element "c";
  d ← cssSelectorBuilder.element "d";
  y ← cssSelectorBuilder.combine c " " d;
  z ← cssSelectorBuilder.combine x "~" y;
  cssSelectorBuilder.stringify z.

(** ** The rectangle *)

Section Rectangle.

(** JavaScript numbers and their [*]. *)
Variable number : Type.
Variable mul : number -> number -> number.

(** The function stored in [getArea]: the arrow function of line 26,
    closed over the [this] of the constructor call that made it. *)
Inductive arrow := area_of (this : nat).

(** The properties the constructor sets. *)
Record RectangleObject := mkRectangle {
  width : number;
  height : number;
  getArea : arrow
}.

(** lines 23-27, called with [new]: the new object is stored and its
    reference returned. *)
Definition Rectangle (w h : number) (objects : list RectangleObject)
  : list RectangleObject * nat :=
  let this := List.length objects in
  (objects ++ [ {| width := w; height := h; getArea := area_of this |} ], this).

(** [r.width = w] *)
Definition assign_width (r : nat) (w : number) (objects : list RectangleObject)
  : list RectangleObject :=
  match objects !! r with
  | Some o => <[r := mkRectangle w (height o) (getArea o)]> objects
  | None => objects
  end.

(** [r.height = h] *)
Definition assign_height (r : nat) (h : number) (objects : list RectangleObject)
  : list RectangleObject :=
  match objects !! r with
  | Some o => <[r := mkRectangle (width o) h (getArea o)]> objects
  | None => objects
  end.

(** [r.getArea()]: the stored arrow function is run, and reads the two
    fields of its own [this] at that moment. *)
Definition call_getArea (r : nat) (objects : list RectangleObject)
  : option number :=
  match objects !! r with
  | Some o =>
      match getArea o with
      | area_of this =>
          match objects !! this with
          | Some t => Some (mul (width t) (height t))
          | None => None
          end
      end
  | None => None
  end.

End Rectangle.

Arguments width {number} _.
Arguments height {number} _.
Arguments getArea {number} _.
Arguments Rectangle {number} w h objects.
Arguments assign_width {number} r w objects.
Arguments assign_height {number} r h objects.
Arguments call_getArea {number} mul r objects.

(** ** The JSON helpers *)

(** Plain data: what [JSON.parse] gives. *)
#[warnings="-register-all"]
Inductive data (number : Type) :=
| Null
| Bool (b : bool)
| Number (n : number)
| Text (s : string)
| Array (items : list (data number))
| Object (fields : list (string * data number)).

Arguments Null {number}.
Arguments Bool {number} b.
Arguments Number {number} n.
Arguments Text {number} s.
Arguments Array {number} items.
Arguments Object {number} fields.

(** The errors of this part: [JSON.parse] on malformed text, and
    [Object.setPrototypeOf] on [null]. *)
Inductive exception := SyntaxError | TypeError.

(** A parsed value after [Object.setPrototypeOf(res, proto)]: an object
    or array now carries the reference [proto]; a number, string or
    boolean is returned as it is. *)
Inductive shaped (number : Type) :=
| primitive (v : data number)
| with_prototype (proto : nat) (own : data number).

Arguments primitive {number} v.
Arguments with_prototype {number} proto own.

Section Json.

Variable number : Type.

(** The two built-ins of the runtime the helpers hand their work to. *)
Variable JSON_stringify : data number -> string.
Variable JSON_parse : string -> data number + exception.

(** lines 40-42 *)
Definition getJSON (obj : data number) : string := JSON_stringify obj.

(** [Object.setPrototypeOf(res, proto)], with the value as it is after
    the call. *)
Definition setPrototypeOf (res : data number) (proto : nat)
  : shaped number + exception :=
  match res with
  | Null => inr TypeError
  | Object _ | Array _ => inl (with_prototype proto res)
  | _ => inl (primitive res)
  end.

(** Objects and arrays, the values that carry a prototype. *)
Definition is_object (v : data number) : bool :=
  match v with
  | Object _ | Array _ => true
  | _ => false
  end.

(** lines 56-60 *)
Definition fromJSON (proto : nat) (json : string)
  : shaped number + exception :=
  match JSON_parse json with
  | inl res => setPrototypeOf res proto
  | inr e => inr e
  end.

End Json.

Arguments getJSON {number} JSON_stringify obj.
Arguments setPrototypeOf {number} res proto.
Arguments is_object {number} v.
Arguments fromJSON {number} JSON_parse proto json.

(** ** Compound selectors and fluent chains *)

(** The kinds of a compound selector as the header comment of the
    builder draws it (lines 66-71),
    [element#id.class[attr]:pseudoClass::pseudoElement], where class,
    attribute and pseudo-class can occur several times: an optional
    element, an optional id, [c] classes, [a] attributes, [p]
    pseudo-classes and an optional pseudo-element. *)
Definition compound (e i : bool) (c a p : nat) (q : bool) : list Kind :=
  (if e then [Element] else [])
  ++ (if i then [Id] else [])
  ++ replicate c Class
  ++ replicate a Attr
  ++ replicate p PseudoClass
  ++ (if q then [PseudoElement] else []).

(** The last kind of such a sequence, if it has one. *)
Definition compound_last (e i : bool) (c a p : nat) (q : bool) : option Kind :=
  if q then Some PseudoElement
  else match p with
       | S _ => Some PseudoClass
       | O =>
           match a with
           | S _ => Some Attr
           | O =>
               match c with
               | S _ => Some Class
               | O => if i then Some Id
                      else if e then Some Element else None
               end
           end
       end.

(** A reference that refers to an object of the program: the facade
    object, or an instance that has been made. *)
Definition exists_in (h : heap) (r : ref) : Prop :=
  match r with
  | facade => True
  | instance n => (n < List.length (instances h))%nat
  end.

(** [r.k1(v1).k2(v2)...]: each call is made on what the one before it
    returned. *)
Fixpoint fluent (r : ref) (fragments : list (Kind * string))
  : cssSelectorBuilder.H ref :=
  match fragments with
  | [] => mret r
  | (k, v) :: rest => r' ← cssSelectorBuilder.call r k v; fluent r' rest
  end.

(** The third example of the header comment (lines 99-111); the
    arguments of a call are evaluated from left to right. *)
Definition header_example : cssSelectorBuilder.H Js.value :=
  a ← fluent facade [(Element, "div"); (Id, "main"); (Class, "container");
                     (Class, "draggable")]%string;
  b ← fluent facade [(Element, "table"); (Id, "data")]%string;
  c ← fluent facade [(Element, "tr"); (PseudoClass, "nth-of-type(even)")]%string;
  d ← fluent facade [(Element, "td"); (PseudoClass, "nth-of-type(even)")]%string;
  y ← cssSelectorBuilder.combine c " " d;
  x ← cssSelectorBuilder.combine b "~" y;
  z ← cssSelectorBuilder.combine a "+" x;
  cssSelectorBuilder.stringify z.

(** The rectangle objects of a program: those made by [new Rectangle]
    and changed by assignments to [width] and [height]. *)
Inductive built {number : Type} : list (RectangleObject number) -> Prop :=
| built_none : built []
| built_new w h objects :
    built objects -> built (fst (Rectangle w h objects))
| built_width r w objects :
    built objects -> built (assign_width r w objects)
| built_height r h objects :
    built objects -> built (assign_height r h objects).

(** * Properties *)

(** ** Strings and arrays *)

Lemma append_assoc (a b c : string) : (a +:+ b) +:+ c = a +:+ (b +:+ c).
Proof.
  induction a as [|x a IH]; [reflexivity|].
  change (String x ((a +:+ b) +:+ c) = String x (a +:+ (b +:+ c))).
  now rewrite IH.
Qed.

Lemma append_empty_r (a : string) : a +:+ EmptyString = a.
Proof.
  induction a as [|x a IH]; [reflexivity|].
  change (String x (a +:+ EmptyString) = String x a).
  now rewrite IH.
Qed.

Lemma get_last (used : list string) :
  get used (Js.length used - 1) = last_value used.
Proof.
  unfold get, Js.length, last_value. rewrite last_lookup.
  destruct used as [|x used]; [reflexivity|].
  cbn [List.length]. destruct (Z.ltb_spec (Z.of_nat (S (List.length used)) - 1) 0) as [Hlt|_]; [lia|].
  replace (Z.to_nat (Z.of_nat (S (List.length used)) - 1))
    with (Nat.pred (S (List.length used))) by lia.
  reflexivity.
Qed.

Lemma strict_eq_last (used : list string) (s : string) :
  strict_eq (last_value used) (Str s) = true <-> last used = Some s.
Proof.
  unfold last_value. destruct (last used) as [t|]; simpl.
  - rewrite bool_decide_eq_true. split; congruence.
  - split; discriminate.
Qed.

Lemma last_value_snoc (used : list string) (s : string) :
  last_value (used ++ [s]) = Str s.
Proof. unfold last_value. now rewrite last_snoc. Qed.

(** ** The tags and the specification's ranks *)

Lemma rank_of_tag (k : Kind) : indexOf order (Str (tag k)) = spec_rank k.
Proof. destruct k; reflexivity. Qed.

Lemma singleton_of_tag (k : Kind) :
  includes oneTimeSelectors (Str (tag k)) = spec_singleton k.
Proof. destruct k; reflexivity. Qed.

Lemma tag_inj (p k : Kind) : tag p = tag k -> p = k.
Proof. destruct p, k; simpl; intros H; try reflexivity; discriminate H. Qed.

Lemma spec_rank_inj (p k : Kind) : spec_rank p = spec_rank k -> p = k.
Proof. destruct p, k; simpl; intros H; try reflexivity; discriminate H. Qed.

Lemma spec_rank_nonneg (k : Kind) : 0 <= spec_rank k.
Proof. destruct k; simpl; lia. Qed.

(** A string that [order] holds is the tag of a kind. *)
Lemma indexOf_order_pos (s : string) :
  0 <= indexOf order (Str s) -> exists p, s = tag p.
Proof.
  unfold indexOf, order. simpl.
  repeat (case_bool_decide;
          [ match goal with
            | H : ?t = s |- _ =>
                intros _; subst s;
                first [ now exists Element | now exists Id | now exists Class
                      | now exists Attr | now exists PseudoClass
                      | now exists PseudoElement ]
            end | ]).
  lia.
Qed.

(** ** What [process] and the fragment methods do *)

Lemma process_run (selector : string) (b : SelectorBuilder) :
  Builder.process selector b =
    if strict_eq (last_value (usedSelectors b)) (Str selector)
       && includes oneTimeSelectors (Str selector)
    then (b, Throw (new_Error error1))
    else if indexOf order (last_value (usedSelectors b))
            >? indexOf order (Str selector)
    then (b, Throw (new_Error error2))
    else (mkSelectorBuilder (usedSelectors b ++ [selector]) (str b), Return ()).
Proof.
  unfold Builder.process, mbind, Builder.M_bind, Builder.read,
    Builder.throw, Builder.set_usedSelectors, push.
  cbv beta iota. rewrite get_last.
  destruct (strict_eq _ _ && includes _ _); cbv beta iota;
    rewrite ?get_last; try reflexivity.
  destruct (_ >? _); reflexivity.
Qed.

Lemma append_run (k : Kind) (v : string) (b : SelectorBuilder) :
  append k v b =
    if strict_eq (last_value (usedSelectors b)) (Str (tag k))
       && spec_singleton k
    then (b, Throw (new_Error error1))
    else if indexOf order (last_value (usedSelectors b)) >? spec_rank k
    then (b, Throw (new_Error error2))
    else (mkSelectorBuilder (usedSelectors b ++ [tag k])
                            (str b +:+ spec_render k v), Return ()).
Proof.
  rewrite <- singleton_of_tag, <- rank_of_tag.
  pose proof (process_run (tag k) b) as Hp.
  destruct k; cbn [append tag] in *;
    unfold Builder.element, Builder.id, Builder.class, Builder.attr,
      Builder.pseudoClass, Builder.pseudoElement, mbind, Builder.M_bind;
    rewrite Hp;
    unfold Builder.append_str, Builder.read, Builder.set_str, mbind,
      Builder.M_bind;
    destruct (strict_eq _ _ && includes _ _); try reflexivity;
    destruct (_ >? _); reflexivity.
Qed.

(** The two guards of [process] are the two rules of the specification,
    on a builder whose last recorded kind is [p]. *)
Lemma guard_singleton (p : option Kind) (k : Kind) (used : list string) :
  last_value used = recorded_last p ->
  strict_eq (last_value used) (Str (tag k)) && spec_singleton k
  = spec_singleton_violation p k.
Proof.
  intros ->. destruct p as [p|]; [|reflexivity].
  destruct p, k; reflexivity.
Qed.

Lemma guard_ordering (p : option Kind) (k : Kind) (used : list string) :
  last_value used = recorded_last p ->
  (indexOf order (last_value used) >? spec_rank k)
  = spec_ordering_violation p k.
Proof.
  intros ->. destruct p as [p|]; [|now destruct k].
  simpl. now rewrite rank_of_tag.
Qed.

Lemma error1_neq_error2 : new_Error error1 <> new_Error error2.
Proof. discriminate. Qed.

Lemma append_throw_unchanged (k : Kind) (v : string) (b b' : SelectorBuilder)
  (e : Error) :
  append k v b = (b', Throw e) -> b' = b.
Proof.
  rewrite append_run.
  destruct (strict_eq _ _ && spec_singleton k); [now intros [= <- _]|].
  destruct (_ >? _); [now intros [= <- _] | discriminate].
Qed.

Lemma append_new (k : Kind) (v : string) :
  append k v Builder.constructor
  = (mkSelectorBuilder [tag k] (spec_render k v), Return ()).
Proof. destruct k; reflexivity. Qed.

(** ** Valid chains *)

Lemma chain_valid_run (fragments : list (Kind * string)) :
  forall (b : SelectorBuilder) (p : option Kind),
    last_value (usedSelectors b) = recorded_last p ->
    spec_valid_from p (fst <$> fragments) = true ->
    chain fragments b
    = (mkSelectorBuilder
         (usedSelectors b ++ ((fun f => tag (fst f)) <$> fragments))
         (str b +:+ spec_concat fragments),
       Return ()).
Proof.
  induction fragments as [|[k v] rest IH]; intros b p Hlast Hvalid.
  - cbn. rewrite app_nil_r, append_empty_r. now destruct b.
  - cbn in Hvalid.
    apply andb_true_iff in Hvalid as [Hrules Hrest].
    apply andb_true_iff in Hrules as [Hs Ho].
    apply negb_true_iff in Hs, Ho.
    cbn [chain]. unfold mbind, Builder.M_bind. rewrite append_run.
    rewrite (guard_singleton p k _ Hlast), (guard_ordering p k _ Hlast).
    rewrite Hs, Ho.
    rewrite (IH _ (Some k)); [| apply last_value_snoc | exact Hrest].
    cbn. now rewrite <- app_assoc, append_assoc.
Qed.

(** C1. Every sequence of fragment appends on one new builder that
    satisfies the validation rules (ranks non-decreasing, no adjacent
    repeat of a singleton kind) goes through, and [stringify()] then
    returns the concatenation, in append order and with no separators, of
    the rendered forms: [v], [#v], [.v], [[v]], [:v], [::v]. *)
Theorem stringify_concatenates (fragments : list (Kind * string)) :
  spec_valid (fst <$> fragments) = true ->
  snd ((chain fragments ;; Builder.stringify) Builder.constructor)
  = Return (spec_concat fragments).
Proof.
  intros Hvalid. unfold mbind, Builder.M_bind.
  rewrite (chain_valid_run fragments Builder.constructor None);
    [reflexivity | reflexivity | exact Hvalid].
Qed.

Lemma stringify_concatenates_witness :
  spec_valid [Element; Id; Class; Class; Attr; PseudoClass; PseudoElement] = true
  /\ snd ((chain [(Element, "div"); (Id, "main"); (Class, "container");
                  (Class, "editable"); (Attr, "href"); (PseudoClass, "focus");
                  (PseudoElement, "before")]%string ;; Builder.stringify)
            Builder.constructor)
     = Return "div#main.container.editable[href]:focus::before"%string.
Proof.
  split; [reflexivity|].
  apply (stringify_concatenates
           [(Element, "div"); (Id, "main"); (Class, "container");
            (Class, "editable"); (Attr, "href"); (PseudoClass, "focus");
            (PseudoElement, "before")]%string).
  reflexivity.
Defined.

(** ** The two validation errors *)

(** C3, as the code has it. A fragment append throws the singleton
    error, whose message is [error1], exactly when the kind appended is
    the kind appended just before and is element, id or pseudo-element.
    Appending id twice in a row throws it; appending id, class, then id
    again does not throw it, and throws the ordering error instead. *)
Theorem singleton_rule :
  (forall (b : SelectorBuilder) (k : Kind) (v : string),
      snd (append k v b) = Throw (new_Error error1)
      <-> last (usedSelectors b) = Some (tag k) /\ spec_singleton k = true)
  /\ snd (chain [(Id, "main"); (Id, "other")]%string Builder.constructor)
     = Throw (new_Error error1)
  /\ snd (chain [(Id, "main"); (Class, "c"); (Id, "other")]%string
            Builder.constructor)
     = Throw (new_Error error2).
Proof.
  split; [|split; reflexivity].
  intros b k v. rewrite append_run, <- strict_eq_last.
  destruct (strict_eq _ _); simpl.
  - destruct (spec_singleton k); [tauto|].
    destruct (_ >? _); simpl; split;
      first [ intros [_ [=]] | discriminate ].
  - destruct (_ >? _); simpl; split;
      first [ intros [[=] _] | discriminate ].
Qed.

(** The chain id, class, id throws, and the message of the singleton
    error is not the one the specification words. *)
Lemma id_class_id_throws :
  (exists e, snd (chain [(Id, "main"); (Class, "c"); (Id, "other")]%string
                    Builder.constructor) = Throw e)
  /\ snd (chain [(Id, "main"); (Id, "other")]%string Builder.constructor)
     <> Throw (new_Error spec_error1).
Proof.
  split; [now exists (new_Error error2) | discriminate].
Qed.

(** C5, as the code has it. A fragment append throws the ordering error,
    whose message is [error2], exactly when the kind appended just
    before has a rank strictly greater than the rank of the kind being
    appended. Appending class, then element throws it. *)
Theorem ordering_rule :
  (forall (b : SelectorBuilder) (k : Kind) (v : string),
      snd (append k v b) = Throw (new_Error error2)
      <-> exists p, last (usedSelectors b) = Some (tag p)
                    /\ spec_rank p > spec_rank k)
  /\ snd (chain [(Class, "c"); (Element, "div")]%string Builder.constructor)
     = Throw (new_Error error2).
Proof.
  split; [|reflexivity].
  intros b k v. rewrite append_run.
  destruct (strict_eq _ _ && spec_singleton k) eqn:Hs.
  - simpl. split; [discriminate|].
    intros (p & Hp & Hgt). apply andb_true_iff in Hs as [Hs _].
    apply strict_eq_last in Hs. rewrite Hp in Hs.
    injection Hs as Hs. apply tag_inj in Hs. subst p. lia.
  - destruct (Z.gtb_spec (indexOf order (last_value (usedSelectors b)))
                (spec_rank k)) as [Hgt|Hle]; simpl.
    + split; [intros _|reflexivity].
      unfold last_value in Hgt.
      destruct (last (usedSelectors b)) as [s|] eqn:Hlast.
      * pose proof (spec_rank_nonneg k).
        destruct (indexOf_order_pos s) as [p ->]; [lia|].
        rewrite rank_of_tag in Hgt. exists p. split; [reflexivity | lia].
      * pose proof (spec_rank_nonneg k). cbn in Hgt. lia.
    + split; [discriminate|].
      intros (p & Hp & Hgt). unfold last_value in Hle. rewrite Hp in Hle.
      rewrite rank_of_tag in Hle. lia.
Qed.

(** The ordering error thrown on class, then element does not carry the
    message the specification words. *)
Lemma ordering_message_differs :
  snd (chain [(Class, "c"); (Element, "div")]%string Builder.constructor)
  <> Throw (new_Error spec_error2).
Proof. discriminate. Qed.

(** ** The invariant of a builder *)

(** In a sequence sorted by rank, nothing outranks the last kind. *)
Lemma sorted_below_last (kinds : list Kind) (m : Kind) :
  (forall (i j : nat) (p q : Kind),
      (i < j)%nat -> kinds !! i = Some p -> kinds !! j = Some q ->
      spec_rank p <= spec_rank q) ->
  last kinds = Some m ->
  forall (i : nat) (p : Kind), kinds !! i = Some p -> spec_rank p <= spec_rank m.
Proof.
  intros Hsorted Hlast i p Hi. rewrite last_lookup in Hlast.
  pose proof (lookup_lt_Some _ _ _ Hi) as Hlt.
  destruct (decide (i = Nat.pred (List.length kinds))) as [->|Hne].
  - rewrite Hlast in Hi. injection Hi as ->. lia.
  - apply (Hsorted i (Nat.pred (List.length kinds)) p m); [lia | exact Hi | exact Hlast].
Qed.

Lemma last_value_tags (kinds : list Kind) :
  last_value (tag <$> kinds) = recorded_last (last kinds).
Proof.
  unfold last_value. rewrite fmap_last. now destruct (last kinds).
Qed.

(** C4. On every builder whose fragment appends so far all returned,
    the recorded kinds, read in append order, are non-decreasing by rank
    (element < id < class < attribute < pseudoClass < pseudoElement), and
    no singleton kind (element, id, pseudo-element) occurs at two
    positions, adjacent or not. *)
Theorem kinds_sorted_singletons_once (b : SelectorBuilder) :
  reachable b ->
  exists kinds : list Kind,
    usedSelectors b = tag <$> kinds
    /\ (forall (i j : nat) (p q : Kind),
           (i < j)%nat -> kinds !! i = Some p -> kinds !! j = Some q ->
           spec_rank p <= spec_rank q)
    /\ (forall (i j : nat) (p : Kind),
           (i < j)%nat -> kinds !! i = Some p -> kinds !! j = Some p ->
           spec_singleton p = false).
Proof.
  induction 1 as [|b k v b' _ (kinds & Hused & Hsorted & Honce) Happ].
  - exists []. split; [reflexivity|]. split; intros i j ? ? ?; now rewrite lookup_nil.
  - rewrite append_run in Happ. rewrite Hused in Happ.
    pose proof (last_value_tags kinds) as Hlast.
    rewrite (guard_singleton _ k _ Hlast), (guard_ordering _ k _ Hlast) in Happ.
    destruct (spec_singleton_violation (last kinds) k) eqn:Hs; [discriminate|].
    destruct (spec_ordering_violation (last kinds) k) eqn:Ho; [discriminate|].
    injection Happ as <-.
    assert (Hbelow : forall (i : nat) (p : Kind),
               kinds !! i = Some p -> spec_rank p <= spec_rank k).
    { intros i p Hi. destruct (last kinds) as [m|] eqn:Hm.
      - pose proof (sorted_below_last kinds m Hsorted Hm i p Hi).
        cbn in Ho. destruct (Z.gtb_spec (spec_rank m) (spec_rank k)); [discriminate | lia].
      - apply last_None in Hm. subst kinds. now rewrite lookup_nil in Hi. }
    exists (kinds ++ [k]). split; [|split].
    + cbn. now rewrite fmap_app.
    + intros i j p q Hij Hi Hj.
      apply lookup_snoc_Some in Hj as [[Hjlt Hj]|[-> <-]].
      * apply lookup_snoc_Some in Hi as [[_ Hi]|[-> _]]; [|lia].
        now apply (Hsorted i j).
      * apply lookup_snoc_Some in Hi as [[_ Hi]|[-> _]]; [|lia].
        now apply (Hbelow i).
    + intros i j p Hij Hi Hj.
      apply lookup_snoc_Some in Hj as [[Hjlt Hj]|[-> <-]].
      * apply lookup_snoc_Some in Hi as [[_ Hi]|[-> _]]; [|lia].
        now apply (Honce i j).
      * apply lookup_snoc_Some in Hi as [[_ Hi]|[-> _]]; [|lia].
        destruct (last kinds) as [m|] eqn:Hm.
        -- pose proof (sorted_below_last kinds m Hsorted Hm i k Hi) as Hkm.
           cbn in Ho. destruct (Z.gtb_spec (spec_rank m) (spec_rank k)); [discriminate|].
           assert (m = k) by (apply spec_rank_inj; lia). subst m.
           cbn in Hs. rewrite bool_decide_eq_true_2 in Hs by reflexivity.
           exact Hs.
        -- apply last_None in Hm. subst kinds. now rewrite lookup_nil in Hi.
Qed.

Lemma kinds_sorted_singletons_once_witness :
  exists kinds : list Kind,
    ["id"; "class"; "class"; "pseudoEl"]%string = tag <$> kinds
    /\ (forall (i j : nat) (p q : Kind),
           (i < j)%nat -> kinds !! i = Some p -> kinds !! j = Some q ->
           spec_rank p <= spec_rank q)
    /\ (forall (i j : nat) (p : Kind),
           (i < j)%nat -> kinds !! i = Some p -> kinds !! j = Some p ->
           spec_singleton p = false).
Proof.
  apply (kinds_sorted_singletons_once
           (mkSelectorBuilder ["id"; "class"; "class"; "pseudoEl"]%string
                              "#a.b.c::d")).
  apply (reachable_append
           (mkSelectorBuilder ["id"; "class"; "class"]%string "#a.b.c")
           PseudoElement "d"); [|reflexivity].
  apply (reachable_append
           (mkSelectorBuilder ["id"; "class"]%string "#a.b") Class "c");
    [|reflexivity].
  apply (reachable_append (mkSelectorBuilder ["id"]%string "#a") Class "b");
    [|reflexivity].
  apply (reachable_append Builder.constructor Id "a"); [|reflexivity].
  apply reachable_new.
Defined.

(** ** Failed and first appends *)

Lemma invoke_throw_unchanged (k : Kind) (v : string) (n : nat) (h h' : heap)
  (e : Error) :
  cssSelectorBuilder.invoke (append k v) n h = Some (h', Throw e) -> h' = h.
Proof.
  unfold cssSelectorBuilder.invoke.
  destruct (instances h !! n) as [this|] eqn:Hn; [|discriminate].
  destruct (append k v this) as [this' c] eqn:Happ.
  intros [= <- ->]. apply append_throw_unchanged in Happ. subst this'.
  rewrite list_insert_id by exact Hn. now destruct h.
Qed.

Lemma call_facade_run (k : Kind) (v : string) (h : heap) :
  cssSelectorBuilder.call facade k v h
  = Some (mkHeap (facade_str h)
                 (instances h ++ [mkSelectorBuilder [tag k] (spec_render k v)]),
          Return (instance (List.length (instances h)))).
Proof.
  unfold cssSelectorBuilder.call, cssSelectorBuilder.new_SelectorBuilder,
    cssSelectorBuilder.invoke, mbind, cssSelectorBuilder.H_bind, mret,
    cssSelectorBuilder.H_ret.
  cbn [instances facade_str].
  rewrite list_lookup_middle by reflexivity.
  rewrite append_new.
  rewrite insert_app_r_alt by reflexivity.
  now rewrite Nat.sub_diag.
Qed.

(** C9. A fragment append that throws leaves every object as it was, the
    builder's accumulated string and recorded kinds included, so a
    [stringify()] after it returns what it returned before. *)
Theorem failed_append_changes_nothing (r : ref) (k : Kind) (v : string)
  (h h' : heap) (e : Error) :
  cssSelectorBuilder.call r k v h = Some (h', Throw e) ->
  h' = h
  /\ cssSelectorBuilder.stringify r h' = cssSelectorBuilder.stringify r h.
Proof.
  intros Hcall. assert (h' = h) as ->; [|now split].
  destruct r as [|n].
  - rewrite call_facade_run in Hcall. discriminate.
  - unfold cssSelectorBuilder.call, mbind, cssSelectorBuilder.H_bind in Hcall.
    destruct (cssSelectorBuilder.invoke (append k v) n h) as [[h1 [[]|e1]]|] eqn:Hinv;
      [discriminate | | discriminate].
    injection Hcall as <- <-. now apply invoke_throw_unchanged in Hinv.
Qed.

Lemma failed_append_changes_nothing_witness :
  cssSelectorBuilder.call (instance 0) Id "c"
    (mkHeap undefined [mkSelectorBuilder ["id"; "class"]%string "#a.b"])
  = Some ((mkHeap undefined [mkSelectorBuilder ["id"; "class"]%string "#a.b"]),
          Throw (new_Error error2))
  /\ (mkHeap undefined [mkSelectorBuilder ["id"; "class"]%string "#a.b"])
     = (mkHeap undefined [mkSelectorBuilder ["id"; "class"]%string "#a.b"])
  /\ cssSelectorBuilder.stringify (instance 0)
       (mkHeap undefined [mkSelectorBuilder ["id"; "class"]%string "#a.b"])
     = cssSelectorBuilder.stringify (instance 0)
         (mkHeap undefined [mkSelectorBuilder ["id"; "class"]%string "#a.b"]).
Proof.
  split; [reflexivity|].
  exact (failed_append_changes_nothing (instance 0) Id "c"
           (mkHeap undefined [mkSelectorBuilder ["id"; "class"]%string "#a.b"])
           (mkHeap undefined [mkSelectorBuilder ["id"; "class"]%string "#a.b"])
           (new_Error error2) eq_refl).
Defined.

(** C10. The first fragment append on a new builder, as each entry of
    the facade performs it, returns for every kind and every value: with
    no kind recorded yet neither rule fires. The new builder holds that
    one kind and the fragment's rendered form. *)
Theorem first_append_returns (k : Kind) (v : string) (h : heap) :
  append k v Builder.constructor
  = (mkSelectorBuilder [tag k] (spec_render k v), Return ())
  /\ cssSelectorBuilder.entry k v h
     = Some (mkHeap (facade_str h)
               (instances h ++ [mkSelectorBuilder [tag k] (spec_render k v)]),
             Return (instance (List.length (instances h)))).
Proof.
  split; [apply append_new|].
  rewrite <- call_facade_run. now destruct k.
Qed.

(** ** [combine] and the facade object *)

Lemma call_instance_run (k : Kind) (v : string) (n : nat) (h : heap)
  (b b' : SelectorBuilder) :
  instances h !! n = Some b ->
  append k v b = (b', Return ()) ->
  cssSelectorBuilder.call (instance n) k v h
  = Some (mkHeap (facade_str h) (<[n := b']> (instances h)),
          Return (instance n)).
Proof.
  intros Hn Happ.
  unfold cssSelectorBuilder.call, cssSelectorBuilder.invoke, mbind,
    cssSelectorBuilder.H_bind.
  now rewrite Hn, Happ.
Qed.

Lemma combine_run (sel1 sel2 : ref) (combin : string) (h : heap)
  (s1 s2 : Js.value) :
  cssSelectorBuilder.get_str sel1 h = Some (h, Return s1) ->
  cssSelectorBuilder.get_str sel2 h = Some (h, Return s2) ->
  cssSelectorBuilder.combine sel1 combin sel2 h
  = Some (mkHeap (Str (template s1 +:+ " " +:+ combin +:+ " " +:+ template s2))
                 (instances h),
          Return facade).
Proof.
  intros H1 H2.
  unfold cssSelectorBuilder.combine, mbind, cssSelectorBuilder.H_bind.
  now rewrite H1, H2.
Qed.

(** [combine] never makes an object: what it returns is the facade
    object, whose [str] it has overwritten. *)
Lemma combine_returns_facade (sel1 sel2 : ref) (combin : string)
  (h h' : heap) (r : ref) :
  cssSelectorBuilder.combine sel1 combin sel2 h = Some (h', Return r) ->
  r = facade /\ instances h' = instances h.
Proof.
  unfold cssSelectorBuilder.combine, mbind, cssSelectorBuilder.H_bind.
  destruct (cssSelectorBuilder.get_str sel1 h) as [[h1 [s1|e1]]|] eqn:H1;
    [|discriminate|discriminate].
  destruct (cssSelectorBuilder.get_str sel2 h1) as [[h2 [s2|e2]]|] eqn:H2;
    [|discriminate|discriminate].
  cbn. intros [= <- <-]. split; [reflexivity|].
  destruct sel1; cbn in H1;
    [|destruct (instances h !! n); [|discriminate]]; injection H1 as <- _;
  destruct sel2; cbn in H2;
    try (destruct (instances h !! _); [|discriminate]); now injection H2 as <- _.
Qed.

(** An entry of the facade leaves the strings of all existing selectors
    as they are. *)
Lemma entry_keeps_strings (k : Kind) (v : string) (h h' : heap) (r0 r : ref)
  (s : Js.value) :
  cssSelectorBuilder.entry k v h = Some (h', Return r0) ->
  cssSelectorBuilder.stringify r h = Some (h, Return s) ->
  cssSelectorBuilder.stringify r h' = Some (h', Return s).
Proof.
  intros Hentry Hs.
  assert (Hcall : cssSelectorBuilder.entry k v h
                  = cssSelectorBuilder.call facade k v h) by now destruct k.
  rewrite Hcall, call_facade_run in Hentry. injection Hentry as <- _.
  unfold cssSelectorBuilder.stringify, cssSelectorBuilder.get_str in *.
  destruct r as [|n]; cbn [facade_str instances] in *.
  - now injection Hs as <-.
  - destruct (instances h !! n) as [b|] eqn:Hn; [|discriminate].
    injection Hs as <-.
    now rewrite (lookup_app_l_Some _ _ _ _ Hn).
Qed.

(** C2. For all selectors A and B and every combinator string c,
    [combine(A, c, B)] returns a selector whose [stringify()] is A's
    string, a space, c as it is, a space, B's string; and
    [combine(element('div').id('main'), '+',
             element('table').id('data')).stringify()] is
    ['div#main + table#data'], whatever objects exist already. *)
Theorem combine_renders (h : heap) (A B : ref) (c sa sb : string) :
  cssSelectorBuilder.stringify A h = Some (h, Return (Str sa)) ->
  cssSelectorBuilder.stringify B h = Some (h, Return (Str sb)) ->
  (exists (h' : heap) (r : ref),
      cssSelectorBuilder.combine A c B h = Some (h', Return r)
      /\ cssSelectorBuilder.stringify r h'
         = Some (h', Return (Str (sa +:+ " " +:+ c +:+ " " +:+ sb))))
  /\ snd <$> div_plus_table h = Some (Return (Str "div#main + table#data")).
Proof.
  intros HA HB. split.
  - eexists _, _. split; [exact (combine_run A B c h _ _ HA HB)|reflexivity].
  - unfold div_plus_table, cssSelectorBuilder.element.
    unfold mbind at 1. unfold cssSelectorBuilder.H_bind at 1.
    rewrite call_facade_run.
    unfold mbind at 1. unfold cssSelectorBuilder.H_bind at 1.
    rewrite (call_instance_run Id "main" _ _
               (mkSelectorBuilder ["el"]%string "div")
               (mkSelectorBuilder ["el"; "id"]%string "div#main"));
      [| cbn [instances]; now apply list_lookup_middle | reflexivity].
    unfold mbind at 1. unfold cssSelectorBuilder.H_bind at 1.
    rewrite call_facade_run.
    unfold mbind at 1. unfold cssSelectorBuilder.H_bind at 1.
    cbn [instances facade_str].
    rewrite insert_app_r_alt, Nat.sub_diag by reflexivity.
    cbn [insert list_insert].
    rewrite (call_instance_run Id "data" _ _
               (mkSelectorBuilder ["el"]%string "table")
               (mkSelectorBuilder ["el"; "id"]%string "table#data"));
      [| cbn [instances]; apply list_lookup_middle;
         now rewrite length_app, Nat.add_comm
       | reflexivity ].
    unfold mbind at 1. unfold cssSelectorBuilder.H_bind at 1.
    cbn [instances facade_str].
    rewrite insert_app_r_alt by (rewrite length_app; cbn; lia).
    replace (List.length (instances h ++ [mkSelectorBuilder ["el"; "id"]%string "div#main"])
             - List.length (instances h ++ [mkSelectorBuilder ["el"; "id"]%string "div#main"]))%nat
      with 0%nat by lia.
    cbn [insert list_insert].
    rewrite (combine_run _ _ _ _ (Str "div#main") (Str "table#data"));
      [reflexivity | |].
    + unfold cssSelectorBuilder.get_str. cbn [instances].
      rewrite lookup_app_l by (rewrite length_app; cbn; lia).
      now rewrite list_lookup_middle.
    + unfold cssSelectorBuilder.get_str. cbn [instances].
      rewrite list_lookup_middle; [reflexivity|].
      now rewrite length_app, Nat.add_comm.
Qed.

Lemma combine_renders_witness :
  cssSelectorBuilder.stringify (instance 0)
    (mkHeap undefined [mkSelectorBuilder ["el"]%string "tr";
                       mkSelectorBuilder ["el"]%string "td"])
  = Some (mkHeap undefined [mkSelectorBuilder ["el"]%string "tr";
                            mkSelectorBuilder ["el"]%string "td"],
          Return (Str "tr"))
  /\ cssSelectorBuilder.stringify (instance 1)
       (mkHeap undefined [mkSelectorBuilder ["el"]%string "tr";
                          mkSelectorBuilder ["el"]%string "td"])
     = Some (mkHeap undefined [mkSelectorBuilder ["el"]%string "tr";
                               mkSelectorBuilder ["el"]%string "td"],
             Return (Str "td"))
  /\ (exists (h' : heap) (r : ref),
         cssSelectorBuilder.combine (instance 0) ">" (instance 1)
           (mkHeap undefined [mkSelectorBuilder ["el"]%string "tr";
                              mkSelectorBuilder ["el"]%string "td"])
         = Some (h', Return r)
         /\ cssSelectorBuilder.stringify r h'
            = Some (h', Return (Str "tr > td"))).
Proof.
  split; [reflexivity|]. split; [reflexivity|].
  exact (proj1 (combine_renders
                  (mkHeap undefined [mkSelectorBuilder ["el"]%string "tr";
                                     mkSelectorBuilder ["el"]%string "td"])
                  (instance 0) (instance 1) ">" "tr" "td" eq_refl eq_refl)).
Defined.

(** C6, on the code. [combine] stores its result in the [str] of the
    facade object and returns that object, so a second [combine]
    overwrites what the selector returned by the first one stringifies
    to: after [x = combine(a, '+', b)] and [combine(c, '~', d)],
    [x.stringify()] has gone from ['a + b'] to ['c ~ d'], and both calls
    returned the same object. Combining two results of [combine] reads
    the later one twice. *)
Theorem second_combine_overwrites_first :
  snd <$> two_combines initial_heap
  = Some (Return (facade, facade, Str "a + b", Str "c ~ d"))
  /\ snd <$> combine_of_combines initial_heap
     = Some (Return (Str "c   d ~ c   d")).
Proof. split; reflexivity. Qed.

(** ** The rectangle *)


(** ** The JSON helpers *)

(** What [fromJSON] adds to the runtime's [JSON.parse]: an object or
    array it reads is returned with the reference [proto] attached and
    its fields as parsed; an error of [JSON.parse] is the error of
    [fromJSON]. *)
Lemma fromJSON_attaches_prototype (number : Type)
  (JSON_parse : string -> data number + exception)
  (proto : nat) (json : string) :
  match JSON_parse json with
  | inl v =>
      is_object v = true ->
      fromJSON JSON_parse proto json = inl (with_prototype proto v)
  | inr e => fromJSON JSON_parse proto json = inr e
  end.
Proof.
  unfold fromJSON. destruct (JSON_parse json) as [v|e]; [|reflexivity].
  now destruct v.
Qed.

(** * Further properties of the builder *)

(** ** Chains, step by step *)

Lemma chain_app (fs1 fs2 : list (Kind * string)) (b : SelectorBuilder) :
  chain (fs1 ++ fs2) b
  = match chain fs1 b with
    | (b', Return _) => chain fs2 b'
    | (b', Throw e) => (b', Throw e)
    end.
Proof.
  revert b. induction fs1 as [|[k v] rest IH]; intros b; [reflexivity|].
  cbn [app chain]. unfold mbind, Builder.M_bind.
  destruct (append k v b) as [b1 [[]|e]]; [apply IH | reflexivity].
Qed.

Lemma chain_returns_valid (fragments : list (Kind * string)) :
  forall (b b' : SelectorBuilder) (p : option Kind),
    last_value (usedSelectors b) = recorded_last p ->
    chain fragments b = (b', Return ()) ->
    spec_valid_from p (fst <$> fragments) = true.
Proof.
  induction fragments as [|[k v] rest IH]; intros b b' p Hlast Hrun;
    [reflexivity|].
  cbn [chain] in Hrun. unfold mbind, Builder.M_bind in Hrun.
  rewrite append_run in Hrun.
  rewrite (guard_singleton p k _ Hlast), (guard_ordering p k _ Hlast) in Hrun.
  cbn. destruct (spec_singleton_violation p k); [discriminate|].
  destruct (spec_ordering_violation p k); [discriminate|].
  cbn. refine (IH _ b' (Some k) _ Hrun). apply last_value_snoc.
Qed.

Lemma reachable_chain (fragments : list (Kind * string)) :
  forall b b' : SelectorBuilder,
    reachable b -> chain fragments b = (b', Return ()) -> reachable b'.
Proof.
  induction fragments as [|[k v] rest IH]; intros b b' Hb Hrun.
  - now injection Hrun as <-.
  - cbn [chain] in Hrun. unfold mbind, Builder.M_bind in Hrun.
    destruct (append k v b) as [b1 [[]|e]] eqn:Happ; [|discriminate].
    apply (IH b1 b'); [|exact Hrun].
    now apply (reachable_append b k v b1).
Qed.

Lemma reachable_is_chain (b : SelectorBuilder) :
  reachable b ->
  exists fragments, chain fragments Builder.constructor = (b, Return ()).
Proof.
  induction 1 as [|b k v b' _ [fs Hfs] Happ].
  - now exists [].
  - exists (fs ++ [(k, v)]). rewrite chain_app, Hfs.
    cbn [chain]. unfold mbind, Builder.M_bind. now rewrite Happ.
Qed.

Lemma tags_of_fragments (fragments : list (Kind * string)) :
  (fun f => tag (fst f)) <$> fragments = tag <$> (fst <$> fragments).
Proof.
  induction fragments as [|[k v] rest IH]; [reflexivity|].
  cbn. now rewrite IH.
Qed.

(** X1. A chain of fragment appends on a new builder returns exactly
    when its kinds satisfy the two rules at every step. *)
Theorem chain_returns_iff_valid (fragments : list (Kind * string)) :
  snd (chain fragments Builder.constructor) = Return ()
  <-> spec_valid (fst <$> fragments) = true.
Proof.
  split.
  - destruct (chain fragments Builder.constructor) as [b' c] eqn:Hrun.
    cbn. intros ->.
    now apply (chain_returns_valid fragments Builder.constructor b' None).
  - intros Hvalid.
    now rewrite (chain_valid_run fragments Builder.constructor None).
Qed.

(** X2. Whether a fragment append returns or throws, and which error,
    depends only on the kind appended and the kind recorded last: never
    on the value appended nor on the string accumulated. The outcome is
    a return or one of the two errors. *)
Theorem append_outcome_by_last_kind (k : Kind) (v v' : string)
  (b b' : SelectorBuilder) :
  last (usedSelectors b) = last (usedSelectors b') ->
  snd (append k v b) = snd (append k v' b')
  /\ (snd (append k v b) = Return ()
      \/ snd (append k v b) = Throw (new_Error error1)
      \/ snd (append k v b) = Throw (new_Error error2)).
Proof.
  intros Hlast. rewrite !append_run. unfold last_value. rewrite Hlast.
  destruct (strict_eq _ _ && spec_singleton k); [cbn; auto|].
  destruct (_ >? _); cbn; auto.
Qed.

Lemma append_outcome_by_last_kind_witness :
  last ["id"]%string = last ["el"; "id"]%string
  /\ snd (append Class "c" (mkSelectorBuilder ["id"]%string "#a"))
     = snd (append Class "" (mkSelectorBuilder ["el"; "id"]%string "x#y"))
  /\ (snd (append Class "c" (mkSelectorBuilder ["id"]%string "#a")) = Return ()
      \/ snd (append Class "c" (mkSelectorBuilder ["id"]%string "#a"))
         = Throw (new_Error error1)
      \/ snd (append Class "c" (mkSelectorBuilder ["id"]%string "#a"))
         = Throw (new_Error error2)).
Proof.
  split; [reflexivity|].
  exact (append_outcome_by_last_kind Class "c" ""
           (mkSelectorBuilder ["id"]%string "#a")
           (mkSelectorBuilder ["el"; "id"]%string "x#y") eq_refl).
Defined.

(** X3. Once a pseudo-element is the last fragment, every further
    append throws and leaves the builder as it is: another
    pseudo-element the singleton error, any other kind the ordering
    error. *)
Theorem nothing_follows_pseudoElement (b : SelectorBuilder) (k : Kind)
  (v : string) :
  last (usedSelectors b) = Some "pseudoEl"%string ->
  append k v b
  = (b, Throw (new_Error (if bool_decide (k = PseudoElement)
                          then error1 else error2))).
Proof.
  intros Hlast. rewrite append_run. unfold last_value. rewrite Hlast.
  now destruct k.
Qed.

Lemma nothing_follows_pseudoElement_witness :
  last ["el"; "pseudoEl"]%string = Some "pseudoEl"%string
  /\ append PseudoClass "hover"
       (mkSelectorBuilder ["el"; "pseudoEl"]%string "p::first-line")
     = (mkSelectorBuilder ["el"; "pseudoEl"]%string "p::first-line",
        Throw (new_Error error2)).
Proof.
  split; [reflexivity|].
  exact (nothing_follows_pseudoElement
           (mkSelectorBuilder ["el"; "pseudoEl"]%string "p::first-line")
           PseudoClass "hover" eq_refl).
Defined.

Lemma reachable_tags (b : SelectorBuilder) :
  reachable b -> exists kinds : list Kind, usedSelectors b = tag <$> kinds.
Proof.
  intros Hb. destruct (reachable_is_chain b Hb) as [fs Hfs].
  pose proof (chain_returns_valid fs Builder.constructor b None eq_refl Hfs)
    as Hvalid.
  rewrite (chain_valid_run fs Builder.constructor None eq_refl Hvalid) in Hfs.
  injection Hfs as <-. exists (fst <$> fs). cbn. apply tags_of_fragments.
Qed.

(** X4. On a builder reached by appends that returned, [element] returns
    only as the first fragment: it does so exactly when nothing has been
    appended yet. *)
Theorem element_only_first (b : SelectorBuilder) (v : string) :
  reachable b ->
  (snd (append Element v b) = Return () <-> usedSelectors b = []).
Proof.
  intros Hb. destruct (reachable_tags b Hb) as [kinds Hused].
  rewrite append_run, Hused.
  pose proof (last_value_tags kinds) as Hlast.
  rewrite (guard_singleton _ Element _ Hlast),
    (guard_ordering _ Element _ Hlast).
  destruct (last kinds) as [p|] eqn:Hp.
  - assert (kinds <> []) as Hne by (intros ->; discriminate Hp).
    split.
    + destruct p; cbn; discriminate.
    + intros Hnil. destruct kinds; [congruence | discriminate Hnil].
  - apply last_None in Hp. subst kinds. cbn. split; reflexivity.
Qed.

Lemma element_only_first_witness :
  append Id "main" Builder.constructor
  = (mkSelectorBuilder ["id"]%string "#main", Return ())
  /\ snd (append Element "div" (mkSelectorBuilder ["id"]%string "#main"))
     <> Return ()
  /\ (snd (append Element "div" (mkSelectorBuilder ["id"]%string "#main"))
      = Return ()
      <-> usedSelectors (mkSelectorBuilder ["id"]%string "#main") = []).
Proof.
  split; [reflexivity|].
  pose (Hiff := element_only_first
                  (mkSelectorBuilder ["id"]%string "#main") "div"
                  (reachable_append Builder.constructor Id "main"
                     (mkSelectorBuilder ["id"]%string "#main")
                     reachable_new eq_refl)).
  split; [|exact Hiff].
  intros Hret. apply (proj1 Hiff) in Hret. discriminate Hret.
Defined.

(** X5. The builders reached by appends that returned are exactly those
    whose recorded kinds satisfy the two rules and whose string is the
    concatenation of the rendered fragments recorded, in order. *)
Theorem reachable_iff_valid_chain (b : SelectorBuilder) :
  reachable b
  <-> exists fragments : list (Kind * string),
        spec_valid (fst <$> fragments) = true
        /\ b = mkSelectorBuilder ((fun f => tag (fst f)) <$> fragments)
                                 (spec_concat fragments).
Proof.
  split.
  - intros Hb. destruct (reachable_is_chain b Hb) as [fs Hfs].
    pose proof (chain_returns_valid fs Builder.constructor b None eq_refl Hfs)
    as Hvalid.
    exists fs. split; [exact Hvalid|].
    rewrite (chain_valid_run fs Builder.constructor None eq_refl Hvalid) in Hfs.
    now injection Hfs as <-.
  - intros (fs & Hvalid & ->).
    apply (reachable_chain fs Builder.constructor); [apply reachable_new|].
    now rewrite (chain_valid_run fs Builder.constructor None eq_refl Hvalid).
Qed.

(** X7. A chain that throws stops at its first invalid fragment: the
    fragments before it have been appended, the builder is as they left
    it, and it is that fragment's append that throws the error. *)
Theorem chain_stops_at_first_invalid (fragments : list (Kind * string)) :
  forall (b b' : SelectorBuilder) (e : Error),
    chain fragments b = (b', Throw e) ->
    exists (pre : list (Kind * string)) (k : Kind) (v : string)
           (post : list (Kind * string)),
      fragments = pre ++ (k, v) :: post
      /\ chain pre b = (b', Return ())
      /\ append k v b' = (b', Throw e).
Proof.
  induction fragments as [|[k v] rest IH]; intros b b' e Hrun;
    [discriminate Hrun|].
  cbn [chain] in Hrun. unfold mbind, Builder.M_bind in Hrun.
  destruct (append k v b) as [b1 [[]|e1]] eqn:Happ.
  - destruct (IH b1 b' e Hrun) as (pre & k' & v' & post & -> & Hpre & Hfail).
    exists ((k, v) :: pre), k', v', post. split; [reflexivity|].
    split; [|exact Hfail].
    cbn [chain]. unfold mbind, Builder.M_bind. now rewrite Happ.
  - injection Hrun as <- <-.
    pose proof (append_throw_unchanged k v b b1 e1 Happ) as ->.
    now exists [], k, v, rest.
Qed.

Lemma chain_stops_at_first_invalid_witness :
  exists (pre : list (Kind * string)) (k : Kind) (v : string)
         (post : list (Kind * string)),
    [(Id, "a"); (Class, "b"); (Id, "c"); (Attr, "d")]%string
    = pre ++ (k, v) :: post
    /\ chain pre Builder.constructor
       = (mkSelectorBuilder ["id"; "class"]%string "#a.b", Return ())
    /\ append k v (mkSelectorBuilder ["id"; "class"]%string "#a.b")
       = (mkSelectorBuilder ["id"; "class"]%string "#a.b",
          Throw (new_Error error2)).
Proof.
  exact (chain_stops_at_first_invalid
           [(Id, "a"); (Class, "b"); (Id, "c"); (Attr, "d")]%string
           Builder.constructor
           (mkSelectorBuilder ["id"; "class"]%string "#a.b")
           (new_Error error2) eq_refl).
Defined.

(** ** The shape of what a builder records *)

Lemma last_compound (e i : bool) (c a p : nat) (q : bool) :
  last (compound e i c a p q) = compound_last e i c a p q.
Proof.
  unfold compound, compound_last. rewrite !last_app.
  destruct q, p, a, c, i, e;
    rewrite ?replicate_S_end, ?last_snoc; reflexivity.
Qed.

Lemma tags_inj (l1 l2 : list Kind) : tag <$> l1 = tag <$> l2 -> l1 = l2.
Proof.
  revert l2. induction l1 as [|x l1 IH]; intros [|y l2] Heq;
    try discriminate Heq; [reflexivity|].
  cbn in Heq. injection Heq as Hxy Hrest.
  apply tag_inj in Hxy. apply IH in Hrest. now subst.
Qed.

Lemma reachable_compound (b : SelectorBuilder) :
  reachable b ->
  exists (e i : bool) (c a p : nat) (q : bool),
    usedSelectors b = tag <$> compound e i c a p q.
Proof.
  induction 1 as [|b k v b' _ (e & i & c & a & p & q & Hused) Happ].
  - now exists false, false, 0%nat, 0%nat, 0%nat, false.
  - rewrite append_run, Hused in Happ.
    pose proof (last_value_tags (compound e i c a p q)) as Hlast.
    rewrite (guard_singleton _ k _ Hlast), (guard_ordering _ k _ Hlast),
      last_compound in Happ.
    destruct (spec_singleton_violation _ k) eqn:Hs; [discriminate|].
    destruct (spec_ordering_violation _ k) eqn:Ho; [discriminate|].
    injection Happ as <-. cbn [usedSelectors]. rewrite <- fmap_snoc.
    assert (Hshape : exists (e' i' : bool) (c' a' p' : nat) (q' : bool),
               compound e i c a p q ++ [k] = compound e' i' c' a' p' q').
    { destruct k.
      - destruct q; [discriminate|]. destruct p; [|discriminate].
        destruct a; [|discriminate]. destruct c; [|discriminate].
        destruct i; [discriminate|]. destruct e; [discriminate|].
        now exists true, false, 0%nat, 0%nat, 0%nat, false.
      - destruct q; [discriminate|]. destruct p; [|discriminate].
        destruct a; [|discriminate]. destruct c; [|discriminate].
        destruct i; [discriminate|].
        exists e, true, 0%nat, 0%nat, 0%nat, false. now destruct e.
      - destruct q; [discriminate|]. destruct p; [|discriminate].
        destruct a; [|discriminate].
        exists e, i, (S c), 0%nat, 0%nat, false.
        unfold compound. rewrite replicate_S_end. cbn [replicate].
        now rewrite !app_nil_r, <- !app_assoc.
      - destruct q; [discriminate|]. destruct p; [|discriminate].
        exists e, i, c, (S a), 0%nat, false.
        unfold compound. rewrite replicate_S_end. cbn [replicate].
        now rewrite !app_nil_r, <- !app_assoc.
      - destruct q; [discriminate|].
        exists e, i, c, a, (S p), false.
        unfold compound. rewrite replicate_S_end.
        now rewrite !app_nil_r, <- !app_assoc.
      - destruct q; [discriminate|].
        exists e, i, c, a, p, true.
        unfold compound. now rewrite !app_nil_r, <- !app_assoc. }
    destruct Hshape as (e' & i' & c' & a' & p' & q' & ->).
    now exists e', i', c', a', p', q'.
Qed.

Lemma valid_block (k : Kind) (n : nat) (rest : list Kind) :
  spec_singleton k = false ->
  spec_valid_from (Some k) (replicate n k ++ rest)
  = spec_valid_from (Some k) rest.
Proof.
  intros Hk. induction n as [|n IH]; [reflexivity|].
  cbn [replicate app spec_valid_from spec_singleton_violation
         spec_ordering_violation].
  rewrite Hk, andb_false_r, IH.
  now destruct (Z.gtb_spec (spec_rank k) (spec_rank k)); [lia|].
Qed.

Lemma compound_valid (e i : bool) (c a p : nat) (q : bool) :
  spec_valid (compound e i c a p q) = true.
Proof.
  unfold spec_valid, compound.
  destruct e, i, c, a, p, q;
    cbn [replicate app spec_valid_from spec_singleton_violation
           spec_ordering_violation spec_rank spec_singleton negb andb
           bool_decide decide_rel Z.gtb Z.compare];
    rewrite ?valid_block by reflexivity;
    cbn [replicate app spec_valid_from spec_singleton_violation
           spec_ordering_violation spec_rank spec_singleton negb andb
           Z.gtb Z.compare];
    rewrite ?valid_block by reflexivity;
    cbn [replicate app spec_valid_from spec_singleton_violation
           spec_ordering_violation spec_rank spec_singleton negb andb
           Z.gtb Z.compare];
    rewrite ?valid_block by reflexivity;
    reflexivity.
Qed.

(** X6. The sequences of kinds a builder can come to record are exactly
    those the header comment draws: an optional element, an optional id,
    any number of classes, then of attributes, then of pseudo-classes,
    and an optional pseudo-element. *)
Theorem recorded_kinds_are_compound (kinds : list Kind) :
  (exists b : SelectorBuilder, reachable b /\ usedSelectors b = tag <$> kinds)
  <-> exists (e i : bool) (c a p : nat) (q : bool),
        kinds = compound e i c a p q.
Proof.
  split.
  - intros (b & Hb & Hused).
    destruct (reachable_compound b Hb) as (e & i & c & a & p & q & Hshape).
    exists e, i, c, a, p, q. apply tags_inj. congruence.
  - intros (e & i & c & a & p & q & ->).
    set (fs := (fun k : Kind => (k, EmptyString)) <$> compound e i c a p q).
    assert (Hfst : fst <$> fs = compound e i c a p q).
    { unfold fs. generalize (compound e i c a p q). intros l.
      induction l as [|x l IH]; [reflexivity|]. cbn. now rewrite IH. }
    exists (mkSelectorBuilder ((fun f => tag (fst f)) <$> fs) (spec_concat fs)).
    split.
    + apply (reachable_chain fs Builder.constructor); [apply reachable_new|].
      rewrite (chain_valid_run fs Builder.constructor None eq_refl);
        [reflexivity|].
      rewrite Hfst. apply compound_valid.
    + cbn. now rewrite tags_of_fragments, Hfst.
Qed.

(** ** Method calls on references *)

Lemma call_instance_total (k : Kind) (v : string) (n : nat) (h : heap)
  (b : SelectorBuilder) :
  instances h !! n = Some b ->
  cssSelectorBuilder.call (instance n) k v h
  = Some (mkHeap (facade_str h) (<[n := fst (append k v b)]> (instances h)),
          match snd (append k v b) with
          | Return _ => Return (instance n)
          | Throw e => Throw e
          end).
Proof.
  intros Hn.
  unfold cssSelectorBuilder.call, cssSelectorBuilder.invoke, mbind,
    cssSelectorBuilder.H_bind.
  rewrite Hn. now destruct (append k v b) as [b1 [[]|e]].
Qed.

(** A fluent chain on an instance is the chain of the class on the
    fields of that instance, stored back. *)
Lemma fluent_instance_run (fragments : list (Kind * string)) :
  forall (n : nat) (h : heap) (b : SelectorBuilder),
    instances h !! n = Some b ->
    fluent (instance n) fragments h
    = Some (mkHeap (facade_str h)
                   (<[n := fst (chain fragments b)]> (instances h)),
            match snd (chain fragments b) with
            | Return _ => Return (instance n)
            | Throw e => Throw e
            end).
Proof.
  induction fragments as [|[k v] rest IH]; intros n h b Hn.
  - cbn. rewrite list_insert_id by exact Hn. now destruct h.
  - cbn [fluent chain]. unfold mbind at 1. unfold cssSelectorBuilder.H_bind.
    rewrite (call_instance_total k v n h b Hn).
    unfold mbind, Builder.M_bind.
    destruct (append k v b) as [b1 [[]|e]]; cbn [fst snd]; [|reflexivity].
    rewrite (IH n _ b1); cbn [instances facade_str].
    + now rewrite list_insert_insert_eq.
    + apply list_lookup_insert_eq. now apply lookup_lt_Some in Hn.
Qed.

(** X8. An entry of the facade never changes what a selector that
    exists already stringifies to. *)
Theorem entry_leaves_selectors (k : Kind) (v : string) (h h' : heap)
  (r0 r : ref) (s : Js.value) :
  cssSelectorBuilder.entry k v h = Some (h', Return r0) ->
  cssSelectorBuilder.stringify r h = Some (h, Return s) ->
  cssSelectorBuilder.stringify r h' = Some (h', Return s)
  /\ cssSelectorBuilder.stringify r0 h = None.
Proof.
  intros Hentry Hs.
  assert (Hcall : cssSelectorBuilder.entry k v h
                  = cssSelectorBuilder.call facade k v h) by now destruct k.
  rewrite Hcall, call_facade_run in Hentry. injection Hentry as <- <-.
  unfold cssSelectorBuilder.stringify, cssSelectorBuilder.get_str in *.
  split.
  - destruct r as [|n]; cbn [facade_str instances] in *.
    + now injection Hs as <-.
    + destruct (instances h !! n) as [b|] eqn:Hn; [|discriminate].
      injection Hs as <-.
      now rewrite (lookup_app_l_Some _ _ _ _ Hn).
  - now rewrite lookup_ge_None_2.
Qed.

Lemma entry_leaves_selectors_witness :
  cssSelectorBuilder.entry Class "x"
    (mkHeap (Str "a > b") [mkSelectorBuilder ["el"]%string "a";
                           mkSelectorBuilder ["el"]%string "b"])
  = Some (mkHeap (Str "a > b") [mkSelectorBuilder ["el"]%string "a";
                                mkSelectorBuilder ["el"]%string "b";
                                mkSelectorBuilder ["class"]%string ".x"],
          Return (instance 2))
  /\ cssSelectorBuilder.stringify facade
       (mkHeap (Str "a > b") [mkSelectorBuilder ["el"]%string "a";
                              mkSelectorBuilder ["el"]%string "b";
                              mkSelectorBuilder ["class"]%string ".x"])
     = Some (mkHeap (Str "a > b") [mkSelectorBuilder ["el"]%string "a";
                                   mkSelectorBuilder ["el"]%string "b";
                                   mkSelectorBuilder ["class"]%string ".x"],
             Return (Str "a > b")).
Proof.
  split; [reflexivity|].
  exact (proj1 (entry_leaves_selectors Class "x"
                  (mkHeap (Str "a > b") [mkSelectorBuilder ["el"]%string "a";
                                         mkSelectorBuilder ["el"]%string "b"])
                  _ (instance 2) facade (Str "a > b") eq_refl eq_refl)).
Defined.

(** X9. A chain of method calls on one instance, whether it returns or
    throws, leaves the facade object's string, the number of instances
    and every other instance as they were. *)
Theorem fluent_touches_one_instance (fragments : list (Kind * string))
  (n : nat) (h h' : heap) (c : completion ref) :
  fluent (instance n) fragments h = Some (h', c) ->
  facade_str h' = facade_str h
  /\ List.length (instances h') = List.length (instances h)
  /\ forall m : nat, m <> n -> instances h' !! m = instances h !! m.
Proof.
  intros Hrun. destruct (instances h !! n) as [b|] eqn:Hn.
  - rewrite (fluent_instance_run fragments n h b Hn) in Hrun.
    injection Hrun as <- _. cbn [facade_str instances].
    split; [reflexivity|]. split; [apply length_insert|].
    intros m Hm. now apply list_lookup_insert_ne.
  - destruct fragments as [|[k v] rest].
    + cbn in Hrun. injection Hrun as <- _. now repeat split.
    + cbn [fluent] in Hrun.
      unfold mbind at 1, cssSelectorBuilder.H_bind, cssSelectorBuilder.call,
        cssSelectorBuilder.invoke in Hrun.
      unfold mbind, cssSelectorBuilder.H_bind in Hrun.
      now rewrite Hn in Hrun.
Qed.

Lemma fluent_touches_one_instance_witness :
  fluent (instance 1) [(Class, "c"); (Id, "d")]%string
    (mkHeap (Str "x") [mkSelectorBuilder ["el"]%string "a";
                       mkSelectorBuilder ["id"]%string "#b"])
  = Some (mkHeap (Str "x") [mkSelectorBuilder ["el"]%string "a";
                            mkSelectorBuilder ["id"; "class"]%string "#b.c"],
          Throw (new_Error error2))
  /\ (Str "x" = Str "x"
      /\ 2%nat = 2%nat
      /\ forall m : nat, m <> 1%nat ->
           [mkSelectorBuilder ["el"]%string "a";
            mkSelectorBuilder ["id"; "class"]%string "#b.c"] !! m
           = [mkSelectorBuilder ["el"]%string "a";
              mkSelectorBuilder ["id"]%string "#b"] !! m).
Proof.
  split; [reflexivity|].
  exact (fluent_touches_one_instance [(Class, "c"); (Id, "d")]%string 1
           (mkHeap (Str "x") [mkSelectorBuilder ["el"]%string "a";
                              mkSelectorBuilder ["id"]%string "#b"])
           (mkHeap (Str "x") [mkSelectorBuilder ["el"]%string "a";
                              mkSelectorBuilder ["id"; "class"]%string "#b.c"])
           (Throw (new_Error error2)) eq_refl).
Defined.

(** X10. A fluent chain started at the facade whose kinds satisfy the
    two rules adds one instance, holding the kinds and the
    concatenation of the rendered fragments, changes nothing else, and
    [stringify()] on what it returns gives that concatenation. *)
Theorem fluent_from_facade (fragments : list (Kind * string)) (h : heap) :
  fragments <> [] ->
  spec_valid (fst <$> fragments) = true ->
  (fluent facade fragments ≫= cssSelectorBuilder.stringify) h
  = Some (mkHeap (facade_str h)
            (instances h
             ++ [mkSelectorBuilder ((fun f => tag (fst f)) <$> fragments)
                                   (spec_concat fragments)]),
          Return (Str (spec_concat fragments))).
Proof.
  intros Hne Hvalid. destruct fragments as [|[k v] rest]; [congruence|].
  cbn [fluent]. unfold mbind at 1 2. unfold cssSelectorBuilder.H_bind.
  rewrite call_facade_run.
  rewrite (fluent_instance_run rest _ _
             (mkSelectorBuilder [tag k] (spec_render k v)))
    by (cbn [instances]; now apply list_lookup_middle).
  assert (Hrest : spec_valid_from (Some k) (fst <$> rest) = true).
  { cbn in Hvalid. now destruct (spec_valid_from (Some k) rest.*1). }
  rewrite (chain_valid_run rest (mkSelectorBuilder [tag k] (spec_render k v))
             (Some k) eq_refl Hrest).
  cbn [fst snd instances facade_str usedSelectors str].
  rewrite insert_app_r_alt, Nat.sub_diag by reflexivity.
  cbn [insert list_insert].
  unfold cssSelectorBuilder.stringify, cssSelectorBuilder.get_str.
  cbn [instances]. rewrite list_lookup_middle by reflexivity.
  reflexivity.
Qed.

Lemma fluent_from_facade_witness :
  (fluent facade [(Id, "main"); (Class, "container"); (Class, "editable")]%string
     ≫= cssSelectorBuilder.stringify) initial_heap
  = Some (mkHeap undefined
            [mkSelectorBuilder ["id"; "class"; "class"]%string
                               "#main.container.editable"],
          Return (Str "#main.container.editable")).
Proof.
  refine (fluent_from_facade
            [(Id, "main"); (Class, "container"); (Class, "editable")]%string
            initial_heap _ eq_refl).
  discriminate.
Defined.

(** ** More on [combine] *)

Lemma get_str_exists (h : heap) (r : ref) :
  exists_in h r ->
  exists v : Js.value, cssSelectorBuilder.get_str r h = Some (h, Return v).
Proof.
  destruct r as [|n]; cbn; [now eexists|].
  intros Hn. destruct (lookup_lt_is_Some_2 (instances h) n Hn) as [b Hb].
  rewrite Hb. now eexists.
Qed.

(** X11. [combine] checks nothing: whenever both operands exist it
    returns and does not throw, what it returns is the facade object
    with a string in [str], and no instance is made or changed, its
    operands included. *)
Theorem combine_keeps_instances (sel1 sel2 : ref) (combin : string)
  (h : heap) :
  exists_in h sel1 ->
  exists_in h sel2 ->
  exists s : string,
    cssSelectorBuilder.combine sel1 combin sel2 h
    = Some (mkHeap (Str s) (instances h), Return facade).
Proof.
  intros H1 H2.
  destruct (get_str_exists h sel1 H1) as [v1 Hv1].
  destruct (get_str_exists h sel2 H2) as [v2 Hv2].
  eexists. exact (combine_run sel1 sel2 combin h v1 v2 Hv1 Hv2).
Qed.

Lemma combine_keeps_instances_witness :
  exists s : string,
    cssSelectorBuilder.combine facade ">" (instance 0)
      (mkHeap undefined [mkSelectorBuilder ["el"]%string "a"])
    = Some (mkHeap (Str s) [mkSelectorBuilder ["el"]%string "a"],
            Return facade).
Proof.
  exact (combine_keeps_instances facade (instance 0) ">"
           (mkHeap undefined [mkSelectorBuilder ["el"]%string "a"])
           I (le_n 1)).
Defined.

(** X12. [combine] nests on the right: with an instance as first
    operand and the result of an inner [combine] as second,
    [combine(A, c1, combine(B, c2, C)).stringify()] is A's string, then
    [c1] between spaces, then B's string, [c2] between spaces and C's
    string. The third example of the header comment gives the string
    the comment shows. *)
Theorem combine_nests_on_the_right (h : heap) (n : nat) (a : SelectorBuilder)
  (B C : ref) (c1 c2 sb sc : string) :
  instances h !! n = Some a ->
  cssSelectorBuilder.stringify B h = Some (h, Return (Str sb)) ->
  cssSelectorBuilder.stringify C h = Some (h, Return (Str sc)) ->
  snd <$> (y ← cssSelectorBuilder.combine B c2 C;
           z ← cssSelectorBuilder.combine (instance n) c1 y;
           cssSelectorBuilder.stringify z) h
  = Some (Return (Str (str a +:+ " " +:+ c1 +:+ " "
                       +:+ (sb +:+ " " +:+ c2 +:+ " " +:+ sc))))
  /\ snd <$> header_example initial_heap
     = Some (Return (Str "div#main.container.draggable + table#data ~ tr:nth-of-type(even)   td:nth-of-type(even)")).
Proof.
  intros Ha HB HC. split; [|reflexivity].
  unfold mbind at 1. unfold cssSelectorBuilder.H_bind at 1.
  rewrite (combine_run B C c2 h _ _ HB HC).
  unfold mbind at 1. unfold cssSelectorBuilder.H_bind at 1.
  rewrite (combine_run (instance n) facade c1 _ (Str (str a))
             (Str (sb +:+ " " +:+ c2 +:+ " " +:+ sc)));
    [reflexivity | | reflexivity].
  unfold cssSelectorBuilder.get_str. cbn [instances]. now rewrite Ha.
Qed.

Lemma combine_nests_on_the_right_witness :
  snd <$> (y ← cssSelectorBuilder.combine (instance 1) "~" (instance 2);
           z ← cssSelectorBuilder.combine (instance 0) "+" y;
           cssSelectorBuilder.stringify z)
            (mkHeap undefined [mkSelectorBuilder ["el"]%string "a";
                               mkSelectorBuilder ["el"]%string "b";
                               mkSelectorBuilder ["el"]%string "c"])
  = Some (Return (Str "a + b ~ c")).
Proof.
  exact (proj1 (combine_nests_on_the_right
                  (mkHeap undefined [mkSelectorBuilder ["el"]%string "a";
                                     mkSelectorBuilder ["el"]%string "b";
                                     mkSelectorBuilder ["el"]%string "c"])
                  0 (mkSelectorBuilder ["el"]%string "a")
                  (instance 1) (instance 2) "+" "~" "b" "c"
                  eq_refl eq_refl eq_refl)).
Defined.

(** * Further properties of the rectangle *)

Lemma built_closures {number : Type} (objects : list (RectangleObject number)) :
  built objects ->
  forall (r : nat) (o : RectangleObject number),
    objects !! r = Some o -> getArea o = area_of r.
Proof.
  induction 1 as [|w h objects _ IH|r0 w objects _ IH|r0 h objects _ IH];
    intros r o Hr.
  - now rewrite lookup_nil in Hr.
  - unfold Rectangle in Hr. cbn [fst] in Hr.
    apply lookup_snoc_Some in Hr as [[_ Hr]|[-> <-]]; [now apply IH|].
    reflexivity.
  - unfold assign_width in Hr.
    destruct (objects !! r0) as [o0|] eqn:H0; [|now apply IH].
    apply list_lookup_insert_Some in Hr as [(-> & <- & _)|[_ Hr]];
      [|now apply IH].
    cbn [getArea]. now apply IH.
  - unfold assign_height in Hr.
    destruct (objects !! r0) as [o0|] eqn:H0; [|now apply IH].
    apply list_lookup_insert_Some in Hr as [(-> & <- & _)|[_ Hr]];
      [|now apply IH].
    cbn [getArea]. now apply IH.
Qed.

Lemma getArea_built {number : Type} (mul : number -> number -> number)
  (objects : list (RectangleObject number)) (r : nat) :
  built objects ->
  call_getArea mul r objects
  = (fun o => mul (width o) (height o)) <$> objects !! r.
Proof.
  intros Hb. unfold call_getArea.
  destruct (objects !! r) as [o|] eqn:Hr; [|reflexivity].
  rewrite (built_closures objects Hb r o Hr). now rewrite Hr.
Qed.

(** X13. In any program state made by [new Rectangle] and assignments
    to [width] and [height], [getArea()] on a rectangle is the product
    of that rectangle's own fields as they are now; so assigning a field
    of another rectangle, or making a new rectangle, does not change
    it. *)
Theorem getArea_of_own_fields (number : Type)
  (mul : number -> number -> number)
  (objects : list (RectangleObject number)) :
  built objects ->
  (forall r : nat,
      call_getArea mul r objects
      = (fun o => mul (width o) (height o)) <$> objects !! r)
  /\ (forall (r1 r2 : nat) (w : number), r1 <> r2 ->
        call_getArea mul r2 (assign_width r1 w objects)
        = call_getArea mul r2 objects)
  /\ (forall (r1 r2 : nat) (h : number), r1 <> r2 ->
        call_getArea mul r2 (assign_height r1 h objects)
        = call_getArea mul r2 objects)
  /\ (forall (r : nat) (w h : number), is_Some (objects !! r) ->
        call_getArea mul r (fst (Rectangle w h objects))
        = call_getArea mul r objects).
Proof.
  intros Hb. split; [intros r; now apply getArea_built|].
  split; [|split].
  - intros r1 r2 w Hne.
    rewrite (getArea_built mul _ r2 (built_width r1 w objects Hb)),
      (getArea_built mul _ r2 Hb).
    unfold assign_width. destruct (objects !! r1); [|reflexivity].
    now rewrite list_lookup_insert_ne.
  - intros r1 r2 h Hne.
    rewrite (getArea_built mul _ r2 (built_height r1 h objects Hb)),
      (getArea_built mul _ r2 Hb).
    unfold assign_height. destruct (objects !! r1); [|reflexivity].
    now rewrite list_lookup_insert_ne.
  - intros r w h [o Hr].
    rewrite (getArea_built mul _ r (built_new w h objects Hb)),
      (getArea_built mul _ r Hb).
    unfold Rectangle. cbn [fst].
    now rewrite (lookup_app_l_Some _ _ _ _ Hr), Hr.
Qed.

Lemma getArea_of_own_fields_witness :
  call_getArea Z.mul 0
    (assign_height 1 7 (fst (Rectangle 3 4 (fst (Rectangle 10 20 [])))))
  = Some 200
  /\ call_getArea Z.mul 1
       (assign_height 1 7 (fst (Rectangle 3 4 (fst (Rectangle 10 20 [])))))
     = Some 21.
Proof.
  destruct (getArea_of_own_fields Z Z.mul
              (assign_height 1 7
                 (fst (Rectangle 3 4 (fst (Rectangle 10 20 [])))))
              (built_height 1 7 _
                 (built_new 3 4 _ (built_new 10 20 _ built_none))))
    as [Hown _].
  split; [exact (Hown 0%nat) | exact (Hown 1%nat)].
Defined.
